(** * Notification-preferences API: listing pipeline

    A shallow embedding of the backend of the notification-preferences
    service (backend/models.py, backend/schemas.py,
    backend/routes/notifications.py, backend/middleware/auth.py and
    backend/main.py) together with the properties of its request pipeline:
    filtering and ordering of the catalogue, description fallback, the
    authentication middleware and the translation of failures to HTTP
    responses.

    Conventions.
    - A Python [str] is a sequence of Unicode code points, [list N]; the
      literals of the program are ASCII and are written [lit "..."].
    - Text that the program only emits (the [detail] messages) stays a
      [string].
    - Library calls whose code is not part of the repository (PyJWT's
      [jwt.decode], FastAPI's [HTTPBearer], [str.lower], [os.getenv], the
      framework's own routes, the CORS and HTTPS-redirection middleware)
      are variables of the section that uses them.
    - Logging is not modelled: no property below observes the log. *)

From Stdlib Require Import String Ascii ZArith NArith List Permutation Sorted Lia.
From stdpp Require Import base decidable option list gmap.

Open Scope Z_scope.

(** ** Python strings *)

Abbreviation str := (list N).

Definition lit (s : string) : str :=
  map N_of_ascii (list_ascii_of_string s).

(** [a <= b] on Python strings: code point by code point, a proper prefix
    first.  This is the order [list.sort] uses on [str] keys. *)
Fixpoint str_leb (a b : str) : bool :=
  match a, b with
  | [], _ => true
  | _ :: _, [] => false
  | x :: a', y :: b' =>
      if (x <? y)%N then true
      else if (x =? y)%N then str_leb a' b'
      else false
  end.

(** The lexicographic order on sequences of code points, as a relation. *)
Inductive lex_le : str -> str -> Prop :=
  | lex_le_nil b : lex_le [] b
  | lex_le_lt x y a b : (x < y)%N -> lex_le (x :: a) (y :: b)
  | lex_le_eq x a b : lex_le a b -> lex_le (x :: a) (x :: b).

(** [s.startswith(p)] *)
Fixpoint startswith (s p : str) : bool :=
  match p, s with
  | [], _ => true
  | _ :: _, [] => false
  | c :: p', d :: s' => (d =? c)%N && startswith s' p'
  end.

Definition str_eqb (a b : str) : bool := bool_decide (a = b).

(** ** Data model (backend/models.py, backend/schemas.py) *)

(** A row of table [notification_types].  The columns [id], [key],
    [descriptions], [available], [deprecated], [created_at] and
    [updated_at] are declared [nullable=False]; [deprecated_reason] is
    nullable.  Timestamps are instants on the integer time line. *)
Record NotificationType := {
  nt_id : Z;
  nt_key : str;
  nt_descriptions : gmap str str;
  nt_available : bool;
  nt_deprecated : bool;
  nt_deprecated_reason : option str;
  nt_created_at : Z;
  nt_updated_at : Z
}.

(** Schema [NotificationTypeOut]: the item of the response. *)
Record NotificationTypeOut := {
  out_id : Z;
  out_key : str;
  out_descriptions : gmap str str;
  out_available : bool;
  out_deprecated : bool;
  out_deprecated_reason : option str;
  out_created_at : option Z;
  out_updated_at : option Z
}.

(** Truth value of an [Optional[str]]: [None] and [""] are falsy. *)
Definition truthy (v : option str) : bool :=
  match v with
  | Some (_ :: _) => true
  | _ => false
  end.

(** Python's [a or b]. *)
Definition py_or (a b : option str) : option str :=
  if truthy a then a else b.

(** [NotificationType.get_description].  The method reads only
    [self.descriptions]; [None] is the attribute of an instance on which
    the column was never set, and both [None] and the empty dict are falsy. *)
Definition get_description (self_descriptions : option (gmap str str))
    (lang : str) : str :=
  match self_descriptions with
  | None => []
  | Some d =>
      if bool_decide (d = ∅) then []
      else default [] (py_or (py_or (d !! lang) (d !! lit "en")) (Some []))
  end.

(** The fallback policy in the words of the specification: the entry of
    [lang] if present, else the entry of ["en"] if present, else [""]. *)
Definition spec_get_description (descriptions : option (gmap str str))
    (lang : str) : str :=
  match descriptions with
  | None => []
  | Some d =>
      match d !! lang with
      | Some s => s
      | None => default [] (d !! lit "en")
      end
  end.

(** A value of the dict that [as_dict] returns. *)
Inductive PyValue :=
  | PyNone
  | PyBool (b : bool)
  | PyInt (z : Z)
  | PyStr (s : str)
  | PyDict (d : gmap str str).

(** [x.isoformat() if x else None].  A [datetime] is always truthy, so the
    else-branch is taken by a missing timestamp only. *)
Definition isoformat_or_none (isoformat : Z -> str) (x : option Z) : PyValue :=
  match x with
  | Some t => PyStr (isoformat t)
  | None => PyNone
  end.

(** [NotificationType.as_dict] on a stored row, whose timestamps are set.
    [isoformat] is [datetime.isoformat]. *)
Definition as_dict (isoformat : Z -> str) (self : NotificationType)
    : gmap str PyValue :=
  list_to_map
    [ (lit "id", PyInt (nt_id self));
      (lit "key", PyStr (nt_key self));
      (lit "descriptions", PyDict (nt_descriptions self));
      (lit "available", PyBool (nt_available self));
      (lit "deprecated", PyBool (nt_deprecated self));
      (lit "deprecated_reason",
        match nt_deprecated_reason self with
        | Some reason => PyStr reason
        | None => PyNone
        end);
      (lit "created_at", isoformat_or_none isoformat (Some (nt_created_at self)));
      (lit "updated_at", isoformat_or_none isoformat (Some (nt_updated_at self))) ].

(** ** Responses *)

(** An entry of the [errors] list of a 422 response. *)
Inductive QueryError :=
  | MinLength (param : string) (limit : nat)
  | MaxLength (param : string) (limit : nat).

(** Response bodies of the application. *)
Inductive Body :=
  | NotificationTypeListResponse (notification_types : list NotificationTypeOut)
  | ErrorResponse (detail : string) (errors : option (list QueryError))
  | Detail (detail : string)
  | DetailErrors (detail : string) (errors : list QueryError)
  | Status (status : string)
  | NoBody.

Record Response := {
  status_code : Z;
  content : Body
}.

Definition HTTP_200_OK := 200.
Definition HTTP_401_UNAUTHORIZED := 401.
Definition HTTP_422_UNPROCESSABLE_ENTITY := 422.
Definition HTTP_500_INTERNAL_SERVER_ERROR := 500.

Definition JSONResponse (status : Z) (body : Body) : Response :=
  {| status_code := status; content := body |}.

(** The [detail] field of a body, when it has one. *)
Definition body_detail (b : Body) : option string :=
  match b with
  | ErrorResponse d _ | Detail d | DetailErrors d _ => Some d
  | _ => None
  end.

(** ** Catalogue assembly (backend/routes/notifications.py) *)

(** Outcome of [db.query(NotificationType).all()]: the rows, or an
    exception carrying its text. *)
Inductive QueryResult :=
  | Rows (rows : list NotificationType)
  | RaiseSQLAlchemyError (cause : str)
  | RaiseException (cause : str).

(** The constructor call [NotificationTypeOut(id=nt.id, ...)]. *)
Definition make_out (nt : NotificationType) : NotificationTypeOut :=
  {| out_id := nt_id nt;
     out_key := nt_key nt;
     out_descriptions := nt_descriptions nt;
     out_available := nt_available nt;
     out_deprecated := nt_deprecated nt;
     out_deprecated_reason := nt_deprecated_reason nt;
     out_created_at := Some (nt_created_at nt);
     out_updated_at := Some (nt_updated_at nt) |}.

(** The [for nt in notification_types] loop: [result_types] is the
    accumulator that [append] extends. *)
Fixpoint collect (notification_types : list NotificationType)
    (result_types : list NotificationTypeOut) : list NotificationTypeOut :=
  match notification_types with
  | [] => result_types
  | nt :: rest =>
      if negb (nt_available nt) then collect rest result_types
      else collect rest (result_types ++ [make_out nt])
  end.

(** [result_types.sort(key=lambda x: x.key)].  Python's sort is stable, and
    a stable sort has one possible result; it is computed here by insertion,
    an element going in front of the first one whose key is not smaller. *)
Fixpoint insert_by_key (x : NotificationTypeOut) (l : list NotificationTypeOut)
    : list NotificationTypeOut :=
  match l with
  | [] => [x]
  | y :: l' =>
      if str_leb (out_key x) (out_key y) then x :: y :: l'
      else y :: insert_by_key x l'
  end.

Definition sort_by_key (l : list NotificationTypeOut) : list NotificationTypeOut :=
  foldr insert_by_key [] l.

(** ** Requests and principals (backend/middleware/auth.py) *)

(** A value of a decoded token payload. *)
Inductive Claim :=
  | ClaimStr (s : str)
  | ClaimInt (z : Z).

(** The decoded payload is a dict; it is falsy exactly when empty. *)
Abbreviation Payload := (gmap str Claim).

Record HTTPAuthorizationCredentials := {
  scheme : str;
  credentials : str
}.

(** What the pipeline reads of a request.  [url_scheme] and [path] are
    [request.url.scheme] and [request.url.path]; [state_user] is the
    attribute [request.state.user], [None] when it was never set. *)
Record Request := {
  method : str;
  url_scheme : str;
  path : str;
  authorization : option str;
  query_lang : option str;
  state_user : option Payload
}.

(** The same request with query string [?lang=<lang>]. *)
Definition with_query_lang (request : Request) (lang : str) : Request :=
  {| method := method request;
     url_scheme := url_scheme request;
     path := path request;
     authorization := authorization request;
     query_lang := Some lang;
     state_user := state_user request |}.

(** [request.state.user = payload] *)
Definition set_state_user (request : Request) (payload : Payload) : Request :=
  {| method := method request;
     url_scheme := url_scheme request;
     path := path request;
     authorization := authorization request;
     query_lang := query_lang request;
     state_user := Some payload |}.

(** Outcome of [jwt.decode].  [ExpiredSignatureError] is a subclass of
    [InvalidTokenError]; [RaiseInvalidTokenError] stands for every other
    [InvalidTokenError], [RaiseOther] for an exception outside that class. *)
Inductive JwtOutcome :=
  | Decoded (payload : Payload)
  | RaiseExpiredSignatureError
  | RaiseInvalidTokenError
  | RaiseOther.

Record HTTPException := {
  exc_status_code : Z;
  exc_detail : string
}.

Definition unauthorized (detail : string) : Response :=
  JSONResponse HTTP_401_UNAUTHORIZED (Detail detail).

(** [not user] for [user = getattr(request.state, "user", None)]. *)
Definition falsy_user (user : option Payload) : bool :=
  match user with
  | None => true
  | Some payload => bool_decide (payload = ∅)
  end.

(** The exception of [get_current_user]. *)
Definition authentication_required : HTTPException :=
  {| exc_status_code := HTTP_401_UNAUTHORIZED;
     exc_detail := "Authentication required. Please log in." |}.

(** [get_current_user]: the principal, or the exception it raises.  The
    test is [not user]; an absent attribute reads as [None], which is
    falsy. *)
Definition get_current_user (request : Request) : Payload + HTTPException :=
  let user := state_user request in
  match user with
  | None => inr authentication_required
  | Some payload =>
      if falsy_user user then inr authentication_required
      else inl payload
  end.

(** The order of the items of a response: ascending keys. *)
Definition key_le (a b : NotificationTypeOut) : Prop :=
  lex_le (out_key a) (out_key b).

(** The handler [get_notification_types], once its dependencies are
    resolved: [db] is what the query on the session gives, [current_user]
    the principal, [lang] the validated query parameter. *)
Definition get_notification_types (request : Request) (db : QueryResult)
    (current_user : Payload) (lang : str) : Response :=
  match db with
  | Rows notification_types =>
      let result_types := collect notification_types [] in
      let result_types := sort_by_key result_types in
      JSONResponse HTTP_200_OK (NotificationTypeListResponse result_types)
  | RaiseSQLAlchemyError e =>
      JSONResponse HTTP_500_INTERNAL_SERVER_ERROR
        (ErrorResponse "Failed to fetch notification types. Please try again later." None)
  | RaiseException e =>
      JSONResponse HTTP_500_INTERNAL_SERVER_ERROR
        (ErrorResponse "Internal server error. Please try again later." None)
  end.

(** ** Exception handlers and routes (backend/main.py) *)

Definition http_exception_handler (exc : HTTPException) : Response :=
  JSONResponse (exc_status_code exc) (Detail (exc_detail exc)).

Definition validation_exception_handler (errors : list QueryError) : Response :=
  JSONResponse HTTP_422_UNPROCESSABLE_ENTITY
    (DetailErrors "Invalid request data." errors).

Definition unhandled_exception_handler : Response :=
  JSONResponse HTTP_500_INTERNAL_SERVER_ERROR
    (Detail "Internal server error. Please try again later.").

Definition health_check : Response :=
  JSONResponse HTTP_200_OK (Status "ok").

(** [Query("en", min_length=2, max_length=5)]: the checks made on a [lang]
    that the caller supplied. *)
Definition lang_valid (lang : str) : bool :=
  (2 <=? length lang)%nat && (length lang <=? 5)%nat.

Definition validate_lang (lang : str) : list QueryError :=
  if (length lang <? 2)%nat then [MinLength "lang" 2]
  else if (5 <? length lang)%nat then [MaxLength "lang" 5]
  else [].

(** The route [GET /api/notifications/]: the dependency [get_current_user]
    is resolved first and its exception goes to [http_exception_handler];
    then the query parameter is read, defaulted and checked; then the
    handler runs.  [db] is the outcome of the query on the session that
    the dependency [get_db] provides. *)
Definition notifications_route (db : QueryResult) (request : Request) : Response :=
  match get_current_user request with
  | inr exc => http_exception_handler exc
  | inl current_user =>
      match query_lang request with
      | None => get_notification_types request db current_user (lit "en")
      | Some lang =>
          match validate_lang lang with
          | [] => get_notification_types request db current_user lang
          | errors => validation_exception_handler errors
          end
      end
  end.

(** ** Concrete library behaviours, used to exercise the theorems *)

(** A validator that accepts every token and decodes it to [payload]. *)
Definition decode_const (payload : Payload) (token secret : str)
    (algorithms : list str) : JwtOutcome := Decoded payload.

(** A validator that always answers [o]. *)
Definition decode_outcome (o : JwtOutcome) (token secret : str)
    (algorithms : list str) : JwtOutcome := o.

(** A bearer extractor that reads the header as scheme [Bearer] and the
    whole header value as the token. *)
Definition bearer_whole (request : Request) : option HTTPAuthorizationCredentials :=
  match authorization request with
  | None => None
  | Some h => Some {| scheme := lit "Bearer"; credentials := h |}
  end.

Definition lower_ascii_char (c : N) : N :=
  if ((65 <=? c) && (c <=? 90))%N then (c + 32)%N else c.

Definition lower_ascii (s : str) : str := map lower_ascii_char s.

Definition no_env (name : str) : option str := None.

(** A validator that accepts every token under the default secret and
    the single algorithm [HS256], and no token otherwise. *)
Definition decode_default_config (payload : Payload) (token secret : str)
    (algorithms : list str) : JwtOutcome :=
  if str_eqb secret (lit "change_this_secret")
     && bool_decide (algorithms = [lit "HS256"])
  then Decoded payload
  else RaiseInvalidTokenError.

(** An injective rendering of instants, in the place of [isoformat]: a
    sign and a magnitude. *)
Definition sign_magnitude (t : Z) : str :=
  match t with
  | Z0 => [48%N]
  | Zpos p => [43%N; Npos p]
  | Zneg p => [45%N; Npos p]
  end.

Definition not_found (request : Request) : Response :=
  JSONResponse 404 (Detail "Not Found").

(** Starlette's [HTTPSRedirectMiddleware]: a request of scheme [http] or
    [ws] is answered by a redirection to the secure URL, any other goes on
    to the wrapped application. *)
Definition https_redirect (next : Request -> Response) (request : Request)
    : Response :=
  if str_eqb (url_scheme request) (lit "http")
     || str_eqb (url_scheme request) (lit "ws")
  then JSONResponse 307 NoBody
  else next request.

(** The catalogue of the repository's test suite. *)
Definition email_alert : NotificationType :=
  {| nt_id := 1; nt_key := lit "email_alert";
     nt_descriptions := {[ lit "en" := lit "Email alerts"; lit "fr" := lit "Alertes par email" ]};
     nt_available := true; nt_deprecated := false; nt_deprecated_reason := None;
     nt_created_at := 0; nt_updated_at := 0 |}.

Definition sms_alert : NotificationType :=
  {| nt_id := 2; nt_key := lit "sms_alert";
     nt_descriptions := {[ lit "en" := lit "SMS alerts"; lit "fr" := lit "Alertes SMS" ]};
     nt_available := true; nt_deprecated := true;
     nt_deprecated_reason := Some (lit "Replaced by push notifications");
     nt_created_at := 0; nt_updated_at := 0 |}.

Definition push_alert : NotificationType :=
  {| nt_id := 3; nt_key := lit "push_alert";
     nt_descriptions := {[ lit "en" := lit "Push notifications"; lit "fr" := lit "Notifications push" ]};
     nt_available := true; nt_deprecated := false; nt_deprecated_reason := None;
     nt_created_at := 0; nt_updated_at := 0 |}.

Definition legacy_alert : NotificationType :=
  {| nt_id := 4; nt_key := lit "legacy_alert";
     nt_descriptions :=
       {[ lit "en" := lit "Legacy alerts";
          lit "fr" := lit "Alertes h" ++ [233%N] ++ lit "rit" ++ [233%N] ++ lit "es" ]};
     nt_available := false; nt_deprecated := true;
     nt_deprecated_reason := Some (lit "Deprecated and unavailable");
     nt_created_at := 0; nt_updated_at := 0 |}.

Definition test_rows : list NotificationType :=
  [email_alert; sms_alert; push_alert; legacy_alert].

(** A row outside the test catalogue: available, deprecated without a
    stored reason, described in English only. *)
Definition fax_alert : NotificationType :=
  {| nt_id := 5; nt_key := lit "fax_alert";
     nt_descriptions := {[ lit "en" := lit "Fax alerts" ]};
     nt_available := true; nt_deprecated := true; nt_deprecated_reason := None;
     nt_created_at := 0; nt_updated_at := 0 |}.

(** A mapping with an empty French text next to an English one. *)
Definition empty_fr_descriptions : gmap str str :=
  {[ lit "fr" := []; lit "en" := lit "Email alerts" ]}.

Definition test_payload : Payload :=
  {[ lit "sub" := ClaimStr (lit "1"); lit "username" := ClaimStr (lit "testuser");
     lit "exp" := ClaimInt 9999999999 ]}.

(** [GET /api/notifications/] with header [Authorization: Bearer token]. *)
Definition api_request : Request :=
  {| method := lit "GET"; url_scheme := lit "https";
     path := lit "/api/notifications/";
     authorization := Some (lit "token"); query_lang := None;
     state_user := None |}.

(** [GET /api/notifications/] without [Authorization] header. *)
Definition anonymous_api_request : Request :=
  {| method := lit "GET"; url_scheme := lit "https";
     path := lit "/api/notifications/";
     authorization := None; query_lang := None; state_user := None |}.

(** The same request past a gate that attached the test payload. *)
Definition authenticated_request : Request :=
  set_state_user api_request test_payload.

(** [GET /health] without credentials, over plain HTTP. *)
Definition plain_health_request : Request :=
  {| method := lit "GET"; url_scheme := lit "http"; path := lit "/health";
     authorization := None; query_lang := None; state_user := None |}.

(** [GET /health] without credentials. *)
Definition health_request : Request :=
  {| method := lit "GET"; url_scheme := lit "https"; path := lit "/health";
     authorization := None; query_lang := None; state_user := None |}.

(** The transport middleware lets [request] through to the routes: it is
    served over TLS and is no CORS preflight. *)
Definition passes_transport (transport : (Request -> Response) -> Request -> Response)
    (request : Request) : Prop :=
  ∀ next, transport next request = next request.

(** ** The access gate and the application *)

Section Pipeline.

(** [os.getenv] *)
Variable getenv : str -> option str.
(** [jwt.decode(token, secret, algorithms=...)] *)
Variable jwt_decode : str -> str -> list str -> JwtOutcome.
(** [HTTPBearer(auto_error=False)], called on the request *)
Variable bearer : Request -> option HTTPAuthorizationCredentials.
(** [str.lower] *)
Variable lower : str -> str.
(** what the framework answers on a path that is no route of [main.py] *)
Variable framework_route : Request -> Response.
(** [CORSMiddleware] around [HTTPSRedirectMiddleware], around the routes *)
Variable transport : (Request -> Response) -> Request -> Response.

Definition JWT_SECRET : str :=
  default (lit "change_this_secret") (getenv (lit "JWT_SECRET")).

Definition JWT_ALGORITHM : str :=
  default (lit "HS256") (getenv (lit "JWT_ALGORITHM")).

(** The condition of the first [if] of [dispatch]. *)
Definition allow_listed (p : str) : bool :=
  startswith p (lit "/health")
  || startswith p (lit "/docs")
  || startswith p (lit "/openapi.json")
  || startswith p (lit "/redoc").

(** [AuthMiddleware.dispatch] *)
Definition AuthMiddleware_dispatch (request : Request)
    (call_next : Request -> Response) : Response :=
  if allow_listed (path request) then call_next request
  else
    match bearer request with
    | None => unauthorized "Authentication required. Please log in."
    | Some creds =>
        if negb (str_eqb (lower (scheme creds)) (lit "bearer")) then
          unauthorized "Authentication required. Please log in."
        else
          let token := credentials creds in
          match jwt_decode token JWT_SECRET [JWT_ALGORITHM] with
          | Decoded payload => call_next (set_state_user request payload)
          | RaiseExpiredSignatureError =>
              unauthorized "Session expired. Please log in again."
          | RaiseInvalidTokenError =>
              unauthorized "Invalid authentication token."
          | RaiseOther =>
              unauthorized "Authentication failed. Please log in."
          end
    end.

(** The routes of [create_app]: [/health], and the notifications router
    mounted under [/api/notifications]. *)
Definition router (db : QueryResult) (request : Request) : Response :=
  if str_eqb (method request) (lit "GET") && str_eqb (path request) (lit "/health")
  then health_check
  else if str_eqb (method request) (lit "GET")
          && str_eqb (path request) (lit "/api/notifications/")
  then notifications_route db request
  else framework_route request.

(** The application of [create_app].  [add_middleware] puts each
    middleware in front of the ones added before it: the access gate,
    added last, is outermost, then come the CORS and HTTPS-redirection
    middleware, then the routes. *)
Definition app (db : QueryResult) (request : Request) : Response :=
  AuthMiddleware_dispatch request (transport (router db)).

End Pipeline.

(** * Properties *)

(** ** The order on keys *)

Lemma str_leb_lex_le a b : str_leb a b = true <-> lex_le a b.
Proof.
  revert b; induction a as [|x a IH]; intros [|y b]; simpl.
  - split; [constructor | done].
  - split; [constructor | done].
  - split; [done | inversion 1].
  - destruct (N.ltb_spec x y) as [Hlt|Hge].
    + split; [intros _; by constructor | done].
    + destruct (N.eqb_spec x y) as [->|Hne].
      * rewrite IH. split; [by constructor |].
        inversion 1; subst; [lia | done].
      * split; [done |]. inversion 1; subst; [lia | done].
Qed.

Lemma str_leb_total a b : str_leb a b = false -> str_leb b a = true.
Proof.
  revert b; induction a as [|x a IH]; intros [|y b]; simpl; try done.
  destruct (N.ltb_spec x y); [done |].
  destruct (N.eqb_spec x y) as [->|Hne].
  - rewrite N.ltb_irrefl, N.eqb_refl. apply IH.
  - intros _. destruct (N.ltb_spec y x); [done | lia].
Qed.

Lemma str_leb_trans a b c :
  str_leb a b = true -> str_leb b c = true -> str_leb a c = true.
Proof.
  revert b c; induction a as [|x a IH]; intros [|y b] [|z c]; simpl; try done.
  destruct (N.ltb_spec x y), (N.ltb_spec y z), (N.ltb_spec x z);
    try done; try lia;
    destruct (N.eqb_spec x y), (N.eqb_spec y z), (N.eqb_spec x z);
    try done; try lia.
  apply IH.
Qed.

Lemma str_leb_antisym a b :
  str_leb a b = true -> str_leb b a = true -> a = b.
Proof.
  revert b; induction a as [|x a IH]; intros [|y b]; simpl; try done.
  destruct (N.ltb_spec x y), (N.ltb_spec y x),
    (N.eqb_spec x y), (N.eqb_spec y x); try done; try lia.
  subst y. intros Hab Hba. f_equal. by apply IH.
Qed.

Lemma lex_le_refl a : lex_le a a.
Proof. induction a; by constructor. Qed.

(** ** The loop and the sort *)

Lemma collect_filter rows acc :
  collect rows acc
  = acc ++ (make_out <$> filter (λ nt, nt_available nt = true) rows).
Proof.
  revert acc; induction rows as [|nt rows IH]; intros acc; simpl.
  - by rewrite app_nil_r.
  - destruct (nt_available nt) eqn:Hav; simpl.
    + rewrite IH, filter_cons_True by done. by rewrite <- app_assoc.
    + rewrite IH, filter_cons_False; [done | congruence].
Qed.

Lemma insert_by_key_perm x l : insert_by_key x l ≡ₚ x :: l.
Proof.
  induction l as [|y l IH]; simpl; [done |].
  destruct (str_leb _ _); [done |]. rewrite IH. apply Permutation_swap.
Qed.

Lemma sort_by_key_perm l : sort_by_key l ≡ₚ l.
Proof.
  induction l as [|x l IH]; simpl; [done |].
  change (insert_by_key x (sort_by_key l) ≡ₚ x :: l).
  by rewrite insert_by_key_perm, IH.
Qed.

Lemma insert_by_key_sorted x l :
  StronglySorted key_le l -> StronglySorted key_le (insert_by_key x l).
Proof.
  induction 1 as [|y l Hl IH Hy]; simpl.
  - repeat constructor.
  - destruct (str_leb (out_key x) (out_key y)) eqn:Hxy.
    + constructor; [by constructor |]. constructor.
      * by apply str_leb_lex_le.
      * eapply Forall_impl; [exact Hy |]. intros z Hz.
        apply str_leb_lex_le. eapply str_leb_trans; [exact Hxy |].
        apply str_leb_lex_le. exact Hz.
    + constructor; [exact IH |].
      rewrite insert_by_key_perm. constructor; [| exact Hy].
      apply str_leb_lex_le. by apply str_leb_total.
Qed.

Lemma sort_by_key_sorted l : StronglySorted key_le (sort_by_key l).
Proof.
  induction l as [|x l IH]; simpl; [constructor |].
  by apply insert_by_key_sorted.
Qed.

Lemma StronglySorted_lookup_le (l : list NotificationTypeOut) i j a b :
  StronglySorted key_le l -> (i < j)%nat ->
  l !! i = Some a -> l !! j = Some b -> key_le a b.
Proof.
  intros Hl; revert i j; induction Hl as [|x l Hl IH Hx]; intros i j Hij Hi Hj.
  - done.
  - destruct j as [|j]; [lia |]. simpl in Hj.
    destruct i as [|i]; simpl in Hi.
    + injection Hi as <-. rewrite Forall_forall in Hx. apply Hx.
      by eapply list_elem_of_lookup_2.
    + eapply (IH i j); [lia | done | done].
Qed.

Lemma str_leb_refl a : str_leb a a = true.
Proof. apply str_leb_lex_le, lex_le_refl. Qed.

(** The sort is stable: items of equal key keep their relative order. *)
Lemma insert_by_key_stable k x l :
  filter (λ o, out_key o = k) (insert_by_key x l)
  = filter (λ o, out_key o = k) (x :: l).
Proof.
  induction l as [|y l IH]; simpl; [done |].
  destruct (str_leb (out_key x) (out_key y)) eqn:Hxy; [done |].
  rewrite (filter_cons _ y), IH, !(filter_cons _ x), (filter_cons _ y).
  destruct (decide (out_key y = k)) as [Hy|]; [| done].
  destruct (decide (out_key x = k)) as [Hx|]; [| done].
  rewrite Hx, Hy, str_leb_refl in Hxy. done.
Qed.

Lemma sort_by_key_stable k l :
  filter (λ o, out_key o = k) (sort_by_key l) = filter (λ o, out_key o = k) l.
Proof.
  induction l as [|x l IH]; simpl; [done |].
  rewrite insert_by_key_stable, !filter_cons. by rewrite IH.
Qed.

Lemma lex_le_antisym a b : lex_le a b -> lex_le b a -> a = b.
Proof. rewrite <- !str_leb_lex_le. apply str_leb_antisym. Qed.

Lemma filter_key_head k x (l l' : list NotificationTypeOut) :
  filter (λ o, out_key o = k) l = x :: l' -> x ∈ l ∧ out_key x = k.
Proof.
  intros Hf. assert (Hx : x ∈ filter (λ o, out_key o = k) l).
  { rewrite Hf. apply list_elem_of_here. }
  apply list_elem_of_filter in Hx as [? ?]. done.
Qed.

(** A list has one sorted, stable rearrangement only: whatever algorithm
    [list.sort] runs, its result is the one of [sort_by_key]. *)
Lemma stable_sorted_unique (l1 l2 : list NotificationTypeOut) :
  StronglySorted key_le l1 -> StronglySorted key_le l2 ->
  (∀ k, filter (λ o, out_key o = k) l1 = filter (λ o, out_key o = k) l2) ->
  l1 = l2.
Proof.
  intros H1; revert l2; induction H1 as [|x l1 Hs1 IH Hx]; intros l2 H2 Hf.
  - destruct l2 as [|y l2]; [done |].
    specialize (Hf (out_key y)). by rewrite filter_cons_True in Hf.
  - destruct l2 as [|y l2].
    { specialize (Hf (out_key x)). by rewrite filter_cons_True in Hf. }
    apply StronglySorted_inv in H2 as [Hs2 Hy].
    rewrite Forall_forall in Hx, Hy.
    assert (Hk : out_key x = out_key y).
    { destruct (decide (out_key x = out_key y)) as [|Hne]; [done |].
      pose proof (Hf (out_key x)) as Fx. pose proof (Hf (out_key y)) as Fy.
      rewrite filter_cons_True, (filter_cons_False _ y) in Fx by done.
      rewrite (filter_cons_False _ x), filter_cons_True in Fy by done.
      symmetry in Fx. apply filter_key_head in Fx as [Hxin _].
      apply filter_key_head in Fy as [Hyin _].
      apply lex_le_antisym; [exact (Hx _ Hyin) | exact (Hy _ Hxin)]. }
    pose proof (Hf (out_key x)) as Fx.
    rewrite filter_cons_True, filter_cons_True in Fx by done.
    injection Fx as -> Ftl. f_equal. apply IH; [done |].
    intros k. destruct (decide (out_key y = k)) as [<-|Hne]; [done |].
    specialize (Hf k). by rewrite !filter_cons_False in Hf.
Qed.

Lemma sort_by_key_unique (l l' : list NotificationTypeOut) :
  StronglySorted key_le l' ->
  (∀ k, filter (λ o, out_key o = k) l' = filter (λ o, out_key o = k) l) ->
  l' = sort_by_key l.
Proof.
  intros Hs Hf. apply stable_sorted_unique; [done | apply sort_by_key_sorted |].
  intros k. by rewrite sort_by_key_stable.
Qed.

(** Membership in the sorted result of the loop. *)
Lemma sort_by_key_members rows o :
  o ∈ sort_by_key (collect rows [])
  <-> ∃ nt, nt ∈ rows ∧ nt_available nt = true ∧ o = make_out nt.
Proof.
  rewrite sort_by_key_perm, collect_filter. simpl.
  rewrite list_elem_of_fmap. split.
  - intros (nt & -> & Hnt). apply list_elem_of_filter in Hnt as [Hav Hin].
    by exists nt.
  - intros (nt & Hin & Hav & ->). exists nt. split; [done |].
    by apply list_elem_of_filter.
Qed.

(** The test catalogue: three items come back, in key order. *)
Example listing_test_rows :
  get_notification_types authenticated_request
    (Rows test_rows) test_payload (lit "en")
  = JSONResponse 200
      (NotificationTypeListResponse
         [make_out email_alert; make_out push_alert; make_out sms_alert]).
Proof. reflexivity. Qed.

(** ** The listing operation *)

(** C1: the items of a listing response are exactly the stored records
    whose [available] field is true, one item per such record: every
    available record appears, no unavailable record does, and every item
    comes from an available record. *)
Theorem listing_exactly_available (request : Request) (rows : list NotificationType)
    (current_user : Payload) (lang : str) :
  ∃ items,
    get_notification_types request (Rows rows) current_user lang
    = JSONResponse 200 (NotificationTypeListResponse items)
    ∧ items ≡ₚ make_out <$> filter (λ nt, nt_available nt = true) rows
    ∧ (∀ nt, nt ∈ rows -> nt_available nt = true -> make_out nt ∈ items)
    ∧ (∀ nt, nt ∈ rows -> nt_available nt = false -> make_out nt ∉ items)
    ∧ (∀ o, o ∈ items ->
         out_available o = true
         ∧ ∃ nt, nt ∈ rows ∧ nt_available nt = true ∧ o = make_out nt).
Proof.
  exists (sort_by_key (collect rows [])). split; [reflexivity |].
  split; [by rewrite sort_by_key_perm, collect_filter |].
  split; [| split].
  - intros nt Hin Hav. apply sort_by_key_members. by exists nt.
  - intros nt Hin Hav Hmem. apply sort_by_key_members in Hmem as (nt' & _ & Hav' & Heq).
    apply (f_equal out_available) in Heq. simpl in Heq. congruence.
  - intros o Hmem. apply sort_by_key_members in Hmem as (nt & Hin & Hav & ->).
    split; [exact Hav |]. by exists nt.
Qed.

(** C2: the items of a listing response are in ascending order of [key],
    the order being the lexicographic one on code points: an item never
    comes before an item of smaller key. *)
Theorem listing_sorted_by_key (request : Request) (rows : list NotificationType)
    (current_user : Payload) (lang : str) :
  ∃ items,
    get_notification_types request (Rows rows) current_user lang
    = JSONResponse 200 (NotificationTypeListResponse items)
    ∧ StronglySorted key_le items
    ∧ ∀ (i j : nat) a b, (i < j)%nat -> items !! i = Some a -> items !! j = Some b ->
        lex_le (out_key a) (out_key b).
Proof.
  exists (sort_by_key (collect rows [])). split; [reflexivity |].
  split; [apply sort_by_key_sorted |].
  intros i j a b Hij Hi Hj.
  exact (StronglySorted_lookup_le _ i j a b (sort_by_key_sorted _) Hij Hi Hj).
Qed.

(** ** Description fallback *)

(** What [get_description] computes: the entry of [lang] when it is present
    and not empty, else the entry of ["en"] when present, else [""]. *)
Lemma get_description_cases (descriptions : option (gmap str str)) (lang : str) :
  get_description descriptions lang
  = match descriptions with
    | None => []
    | Some d =>
        match d !! lang with
        | Some (c :: s) => c :: s
        | _ => default [] (d !! lit "en")
        end
    end.
Proof.
  destruct descriptions as [d|]; [| reflexivity].
  unfold get_description. case_bool_decide as Hd.
  - subst d. by rewrite !lookup_empty.
  - unfold py_or.
    destruct (d !! lang) as [[|c s]|]; simpl; try reflexivity;
      by destruct (d !! lit "en") as [[|c' s']|].
Qed.

(** C3 (as amended): for every descriptions attribute, missing or empty
    ones included, and every language code, [get_description] is total and
    returns the entry of [lang] if it is present and non-empty, otherwise
    the entry of ["en"] if present, otherwise the empty string. *)
Theorem get_description_fallback (descriptions : option (gmap str str)) (lang : str) :
  get_description descriptions lang
  = match descriptions with
    | None => []
    | Some d =>
        match d !! lang with
        | Some (c :: s) => c :: s
        | Some [] | None =>
            match d !! lit "en" with
            | Some s => s
            | None => []
            end
        end
    end.
Proof.
  rewrite get_description_cases.
  destruct descriptions as [d|]; [| reflexivity].
  by destruct (d !! lang) as [[|c s]|], (d !! lit "en").
Qed.

(** The method on the test catalogue and on missing mappings. *)
Example get_description_test_rows :
  get_description (Some (nt_descriptions sms_alert)) (lit "fr") = lit "Alertes SMS"
  ∧ get_description (Some (nt_descriptions legacy_alert)) (lit "fr")
    = lit "Alertes h" ++ [233%N] ++ lit "rit" ++ [233%N] ++ lit "es"
  ∧ get_description (Some (nt_descriptions fax_alert)) (lit "fr") = lit "Fax alerts"
  ∧ get_description (Some ∅) (lit "fr") = []
  ∧ get_description None (lit "fr") = [].
Proof. repeat split; reflexivity. Qed.

(** C3 (as stated) fails: with descriptions [{"fr": "", "en": "Email
    alerts"}] and [lang = "fr"] the key is present, so the stated policy
    gives [descriptions["fr"] = ""], while the method returns the English
    text. *)
Lemma get_description_present_empty_counterexample :
  empty_fr_descriptions !! lit "fr" = Some []
  ∧ spec_get_description (Some empty_fr_descriptions) (lit "fr") = []
  ∧ get_description (Some empty_fr_descriptions) (lit "fr") = lit "Email alerts"
  ∧ get_description (Some empty_fr_descriptions) (lit "fr")
    ≠ spec_get_description (Some empty_fr_descriptions) (lit "fr").
Proof. repeat split; try reflexivity. discriminate. Qed.

(** On mappings of the data model, whose texts are non-empty, the method
    and the policy as the specification words it agree. *)
Lemma get_description_nonempty_texts (d : gmap str str) (lang : str) :
  (∀ k s, d !! k = Some s -> s ≠ []) ->
  get_description (Some d) lang = spec_get_description (Some d) lang.
Proof.
  intros Hne. rewrite get_description_cases. simpl.
  destruct (d !! lang) as [[|c s]|] eqn:Hl; try reflexivity.
  by destruct (Hne _ _ Hl).
Qed.

(** ** The route *)

Lemma lang_valid_no_errors (lang : str) :
  lang_valid lang = true -> validate_lang lang = [].
Proof.
  unfold lang_valid, validate_lang. intros [H2 H5]%andb_prop.
  apply Nat.leb_le in H2, H5.
  destruct (Nat.ltb_spec (length lang) 2); [lia |].
  destruct (Nat.ltb_spec 5 (length lang)); [lia | done].
Qed.

Lemma get_current_user_truthy (request : Request) (payload : Payload) :
  state_user request = Some payload -> payload ≠ ∅ ->
  get_current_user request = inl payload.
Proof.
  intros Hu Hp. unfold get_current_user. rewrite Hu. simpl.
  by rewrite bool_decide_eq_false_2.
Qed.

Lemma notifications_route_authenticated (db : QueryResult) (request : Request)
    (payload : Payload) :
  state_user request = Some payload -> payload ≠ ∅ ->
  notifications_route db request
  = match query_lang request with
    | None => get_notification_types request db payload (lit "en")
    | Some lang =>
        match validate_lang lang with
        | [] => get_notification_types request db payload lang
        | errors => validation_exception_handler errors
        end
    end.
Proof.
  intros Hu Hp. unfold notifications_route.
  by rewrite (get_current_user_truthy _ payload).
Qed.

(** C6: on a fixed catalogue, two listing requests that differ only in
    a [lang] of valid length get the same response, a 200 whose items carry
    the [descriptions] mapping of their stored record unchanged. *)
Theorem lang_has_no_effect (request : Request) (rows : list NotificationType)
    (payload : Payload) (lang1 lang2 : str) :
  state_user request = Some payload -> payload ≠ ∅ ->
  lang_valid lang1 = true -> lang_valid lang2 = true ->
  notifications_route (Rows rows) (with_query_lang request lang1)
  = notifications_route (Rows rows) (with_query_lang request lang2)
  ∧ ∃ items,
      notifications_route (Rows rows) (with_query_lang request lang1)
      = JSONResponse 200 (NotificationTypeListResponse items)
      ∧ ∀ o, o ∈ items ->
          ∃ nt, nt ∈ rows ∧ out_id o = nt_id nt ∧ out_key o = nt_key nt
                ∧ out_descriptions o = nt_descriptions nt.
Proof.
  intros Hu Hp Hl1 Hl2.
  rewrite !(notifications_route_authenticated _ _ payload) by done.
  simpl. rewrite !lang_valid_no_errors by done.
  split; [reflexivity |].
  exists (sort_by_key (collect rows [])). split; [reflexivity |].
  intros o Ho. apply sort_by_key_members in Ho as (nt & Hin & _ & ->).
  by exists nt.
Qed.

(** C7: when the query raises a store failure the handler answers 500
    with detail "Failed to fetch notification types. Please try again
    later."; the answer is the same whatever the cause, which therefore
    does not appear in it. *)
Theorem store_failure_response (request : Request) (cause : str)
    (current_user : Payload) (lang : str) :
  get_notification_types request (RaiseSQLAlchemyError cause) current_user lang
  = JSONResponse 500
      (ErrorResponse "Failed to fetch notification types. Please try again later." None)
  ∧ status_code
      (get_notification_types request (RaiseSQLAlchemyError cause) current_user lang)
    = 500
  ∧ body_detail (content
      (get_notification_types request (RaiseSQLAlchemyError cause) current_user lang))
    = Some "Failed to fetch notification types. Please try again later."%string
  ∧ ∀ cause',
      get_notification_types request (RaiseSQLAlchemyError cause') current_user lang
      = get_notification_types request (RaiseSQLAlchemyError cause) current_user lang.
Proof. repeat split. Qed.

(** C8: a stored record that is available and deprecated has an item in
    the response with its [id] and [key], flagged deprecated, whose
    [deprecated_reason] is the stored one, [None] when none was stored; and
    when the key is that of one record only, every item of that key has
    the stored reason. *)
Theorem deprecated_reason_preserved (request : Request)
    (rows : list NotificationType) (current_user : Payload) (lang : str)
    (nt : NotificationType) :
  nt ∈ rows -> nt_available nt = true -> nt_deprecated nt = true ->
  ∃ items,
    get_notification_types request (Rows rows) current_user lang
    = JSONResponse 200 (NotificationTypeListResponse items)
    ∧ (∃ o, o ∈ items ∧ out_id o = nt_id nt ∧ out_key o = nt_key nt
            ∧ out_deprecated o = true
            ∧ out_deprecated_reason o = nt_deprecated_reason nt)
    ∧ ((∀ nt', nt' ∈ rows -> nt_key nt' = nt_key nt -> nt' = nt) ->
       ∀ o, o ∈ items -> out_key o = nt_key nt ->
         out_deprecated_reason o = nt_deprecated_reason nt).
Proof.
  intros Hin Hav Hdep.
  exists (sort_by_key (collect rows [])). split; [reflexivity |]. split.
  - exists (make_out nt). split; [| done].
    apply sort_by_key_members. by exists nt.
  - intros Huniq o Ho Hkey.
    apply sort_by_key_members in Ho as (nt' & Hin' & _ & ->).
    by rewrite (Huniq nt' Hin' Hkey).
Qed.

(** C9: on a request to which no principal was attached,
    [get_current_user] raises the 401 exception instead of returning, and
    the listing route answers 401. *)
Theorem no_principal_unauthorized (request : Request) :
  state_user request = None ->
  get_current_user request
  = inr {| exc_status_code := 401;
           exc_detail := "Authentication required. Please log in." |}
  ∧ ∀ db, notifications_route db request
          = JSONResponse 401 (Detail "Authentication required. Please log in.").
Proof.
  intros Hu. unfold notifications_route, get_current_user. rewrite Hu.
  split; [reflexivity | intros db; reflexivity].
Qed.

(** ** The access gate *)

(** [get_current_user] raises on every falsy principal, absent or empty. *)
Lemma get_current_user_falsy (request : Request) :
  falsy_user (state_user request) = true ->
  get_current_user request = inr authentication_required.
Proof.
  unfold get_current_user. destruct (state_user request); [| done].
  by intros ->.
Qed.

(** The allow-list is a list of prefixes: [/healthz] passes as well. *)
Example allow_listed_prefixes :
  allow_listed (lit "/health") = true
  ∧ allow_listed (lit "/healthz") = true
  ∧ allow_listed (lit "/docs/oauth2-redirect") = true
  ∧ allow_listed (lit "/api/notifications/") = false.
Proof. repeat split; reflexivity. Qed.

Section PipelineProperties.

Variable getenv : str -> option str.
Variable jwt_decode : str -> str -> list str -> JwtOutcome.
Variable bearer : Request -> option HTTPAuthorizationCredentials.
Variable lower : str -> str.
Variable framework_route : Request -> Response.
Variable transport : (Request -> Response) -> Request -> Response.

Local Abbreviation dispatch := (AuthMiddleware_dispatch getenv jwt_decode bearer lower).
Local Abbreviation the_app :=
  (app getenv jwt_decode bearer lower framework_route transport).
Local Abbreviation decode token :=
  (jwt_decode token (JWT_SECRET getenv) [JWT_ALGORITHM getenv]).

(** C4: on a path outside the allow-list the gate answers 401 with
    "Authentication required. Please log in." when there is no bearer
    credential or its scheme is not Bearer, with "Session expired. Please
    log in again." when validation reports expiry, with "Invalid
    authentication token." when the token is invalid, with
    "Authentication failed. Please log in." on any other validation
    failure; when validation succeeds the request goes on with the decoded
    payload attached as [state.user], where [get_current_user] reads it,
    and is otherwise the incoming request. *)
Theorem gate_outcomes (request : Request) (call_next : Request -> Response) :
  allow_listed (path request) = false ->
  (bearer request = None ->
     dispatch request call_next
     = JSONResponse 401 (Detail "Authentication required. Please log in."))
  ∧ (∀ creds, bearer request = Some creds ->
       lower (scheme creds) ≠ lit "bearer" ->
       dispatch request call_next
       = JSONResponse 401 (Detail "Authentication required. Please log in."))
  ∧ (∀ creds, bearer request = Some creds ->
       lower (scheme creds) = lit "bearer" ->
       match decode (credentials creds) with
       | RaiseExpiredSignatureError =>
           dispatch request call_next
           = JSONResponse 401 (Detail "Session expired. Please log in again.")
       | RaiseInvalidTokenError =>
           dispatch request call_next
           = JSONResponse 401 (Detail "Invalid authentication token.")
       | RaiseOther =>
           dispatch request call_next
           = JSONResponse 401 (Detail "Authentication failed. Please log in.")
       | Decoded payload =>
           ∃ forwarded,
             dispatch request call_next = call_next forwarded
             ∧ forwarded = set_state_user request payload
             ∧ state_user forwarded = Some payload
             ∧ method forwarded = method request
             ∧ url_scheme forwarded = url_scheme request
             ∧ path forwarded = path request
             ∧ authorization forwarded = authorization request
             ∧ query_lang forwarded = query_lang request
             ∧ (payload ≠ ∅ -> get_current_user forwarded = inl payload)
       end).
Proof.
  intros Hpath. unfold AuthMiddleware_dispatch. rewrite Hpath.
  split; [| split].
  - by intros ->.
  - intros creds -> Hscheme. unfold str_eqb.
    by rewrite bool_decide_eq_false_2.
  - intros creds -> Hscheme. unfold str_eqb.
    rewrite bool_decide_eq_true_2 by done. simpl.
    destruct (decode (credentials creds)) as [payload| | |]; try done.
    exists (set_state_user request payload).
    repeat (split; [reflexivity |]).
    intros Hne. by apply get_current_user_truthy.
Qed.

(** C5: a request whose path starts with an allow-listed prefix goes
    through the gate whatever its credentials, and [GET /health], once
    past the transport middleware, is answered 200 with body
    [{"status": "ok"}]. *)
Theorem health_and_allow_list (request : Request) :
  allow_listed (path request) = true ->
  (∀ call_next, dispatch request call_next = call_next request)
  ∧ (method request = lit "GET" -> path request = lit "/health" ->
     passes_transport transport request ->
     ∀ db, the_app db request = JSONResponse 200 (Status "ok")).
Proof.
  intros Hpath. split.
  - intros call_next. unfold AuthMiddleware_dispatch. by rewrite Hpath.
  - intros Hm Hp Ht db. unfold app, AuthMiddleware_dispatch. rewrite Hpath, Ht.
    unfold router, str_eqb. rewrite Hm, Hp. reflexivity.
Qed.

(** C10: a token that validates to an empty payload passes the gate,
    which attaches the empty payload and lets the request go on, and
    [get_current_user] then raises 401 "Authentication required. Please
    log in.": the listing route answers that 401. *)
Theorem empty_payload_rejected_downstream (request : Request)
    (creds : HTTPAuthorizationCredentials) :
  allow_listed (path request) = false ->
  bearer request = Some creds ->
  lower (scheme creds) = lit "bearer" ->
  decode (credentials creds) = Decoded ∅ ->
  (∀ call_next,
     dispatch request call_next = call_next (set_state_user request ∅))
  ∧ get_current_user (set_state_user request ∅)
    = inr {| exc_status_code := 401;
             exc_detail := "Authentication required. Please log in." |}
  ∧ (method request = lit "GET" -> path request = lit "/api/notifications/" ->
     passes_transport transport (set_state_user request ∅) ->
     ∀ db, the_app db request
           = JSONResponse 401 (Detail "Authentication required. Please log in.")).
Proof.
  intros Hpath Hb Hs Hd.
  assert (Hgate : ∀ call_next,
    dispatch request call_next = call_next (set_state_user request ∅)).
  { intros call_next. unfold AuthMiddleware_dispatch, str_eqb.
    rewrite Hpath, Hb, Hs, Hd. by rewrite bool_decide_eq_true_2. }
  split; [exact Hgate |]. split; [reflexivity |].
  intros Hm Hp Ht db. unfold app. rewrite Hgate, Ht.
  unfold router, str_eqb. simpl. rewrite Hm, Hp. reflexivity.
Qed.

End PipelineProperties.

(** Behind the HTTPS-redirection middleware a plain-HTTP [GET /health] is
    redirected by the transport layer, past the gate and before the route. *)
Example plain_health_redirected :
  app no_env (decode_outcome RaiseInvalidTokenError) bearer_whole lower_ascii
    not_found https_redirect (Rows test_rows) plain_health_request
  = JSONResponse 307 NoBody.
Proof. reflexivity. Qed.

(** ** The theorems at concrete requests *)

(** The gate on [api_request]: with a validator that reports expiry, and
    with one that decodes the test payload, in front of the listing route,
    which reads the principal the gate attached. *)
Lemma gate_outcomes_witness :
  allow_listed (path api_request) = false
  ∧ AuthMiddleware_dispatch no_env (decode_outcome RaiseExpiredSignatureError)
      bearer_whole lower_ascii api_request not_found
    = JSONResponse 401 (Detail "Session expired. Please log in again.")
  ∧ AuthMiddleware_dispatch no_env (decode_const test_payload)
      bearer_whole lower_ascii api_request (notifications_route (Rows test_rows))
    = JSONResponse 200
        (NotificationTypeListResponse
           [make_out email_alert; make_out push_alert; make_out sms_alert]).
Proof.
  split; [reflexivity |]. split.
  - destruct (gate_outcomes no_env (decode_outcome RaiseExpiredSignatureError)
                bearer_whole lower_ascii api_request not_found eq_refl)
      as (_ & _ & Hdecode).
    exact (Hdecode {| scheme := lit "Bearer"; credentials := lit "token" |}
             eq_refl eq_refl).
  - destruct (gate_outcomes no_env (decode_const test_payload)
                bearer_whole lower_ascii api_request
                (notifications_route (Rows test_rows)) eq_refl)
      as (_ & _ & Hdecode).
    destruct (Hdecode {| scheme := lit "Bearer"; credentials := lit "token" |}
                eq_refl eq_refl)
      as (forwarded & Hgate & -> & _).
    rewrite Hgate. reflexivity.
Defined.

(** [GET /health] without credentials, whatever the validator. *)
Lemma health_and_allow_list_witness :
  allow_listed (path health_request) = true
  ∧ app no_env (decode_outcome RaiseInvalidTokenError) bearer_whole lower_ascii
      not_found https_redirect (Rows test_rows) health_request
    = JSONResponse 200 (Status "ok").
Proof.
  split; [reflexivity |].
  destruct (health_and_allow_list no_env (decode_outcome RaiseInvalidTokenError)
              bearer_whole lower_ascii not_found https_redirect
              health_request eq_refl)
    as [_ Hhealth].
  exact (Hhealth eq_refl eq_refl (λ next, eq_refl) (Rows test_rows)).
Defined.

Lemma test_payload_truthy : test_payload ≠ ∅.
Proof.
  intros H. apply (f_equal (λ m : Payload, m !! lit "sub")) in H.
  vm_compute in H. discriminate H.
Defined.

(** [?lang=fr] and [?lang=en-GB] on the test catalogue. *)
Lemma lang_has_no_effect_witness :
  lang_valid (lit "fr") = true ∧ lang_valid (lit "en-GB") = true
  ∧ notifications_route (Rows test_rows) (with_query_lang authenticated_request (lit "fr"))
    = notifications_route (Rows test_rows)
        (with_query_lang authenticated_request (lit "en-GB")).
Proof.
  split; [reflexivity |]. split; [reflexivity |].
  exact (proj1 (lang_has_no_effect authenticated_request test_rows test_payload
                  (lit "fr") (lit "en-GB") eq_refl test_payload_truthy
                  eq_refl eq_refl)).
Defined.

Lemma sms_alert_in_test_rows : sms_alert ∈ fax_alert :: test_rows.
Proof. do 2 apply list_elem_of_further. apply list_elem_of_here. Defined.

(** [sms_alert], whose reason is stored, in the test catalogue. *)
Lemma deprecated_reason_preserved_witness :
  nt_available sms_alert = true ∧ nt_deprecated sms_alert = true
  ∧ ∃ items,
      get_notification_types authenticated_request (Rows (fax_alert :: test_rows))
        test_payload (lit "en")
      = JSONResponse 200 (NotificationTypeListResponse items)
      ∧ ∃ o, o ∈ items ∧ out_key o = lit "sms_alert"
             ∧ out_deprecated_reason o = Some (lit "Replaced by push notifications").
Proof.
  split; [reflexivity |]. split; [reflexivity |].
  destruct (deprecated_reason_preserved authenticated_request
              (fax_alert :: test_rows) test_payload (lit "en") sms_alert
              sms_alert_in_test_rows eq_refl eq_refl)
    as (items & Hresp & (o & Ho & _ & Hkey & _ & Hreason) & _).
  exists items. split; [exact Hresp |]. exists o. repeat split; assumption.
Defined.

(** [api_request] reaching the route without a principal. *)
Lemma no_principal_unauthorized_witness :
  state_user api_request = None
  ∧ notifications_route (Rows test_rows) api_request
    = JSONResponse 401 (Detail "Authentication required. Please log in.").
Proof.
  split; [reflexivity |].
  exact (proj2 (no_principal_unauthorized api_request eq_refl) (Rows test_rows)).
Defined.

(** [api_request] with a validator that decodes the token to [{}]. *)
Lemma empty_payload_rejected_downstream_witness :
  allow_listed (path api_request) = false
  ∧ bearer_whole api_request
    = Some {| scheme := lit "Bearer"; credentials := lit "token" |}
  ∧ lower_ascii (lit "Bearer") = lit "bearer"
  ∧ app no_env (decode_const ∅) bearer_whole lower_ascii not_found
      https_redirect (Rows test_rows) api_request
    = JSONResponse 401 (Detail "Authentication required. Please log in.").
Proof.
  split; [reflexivity |]. split; [reflexivity |]. split; [reflexivity |].
  destruct (empty_payload_rejected_downstream no_env (decode_const ∅)
              bearer_whole lower_ascii not_found https_redirect api_request
              {| scheme := lit "Bearer"; credentials := lit "token" |}
              eq_refl eq_refl eq_refl eq_refl)
    as (_ & _ & Happ).
  exact (Happ eq_refl eq_refl (λ next, eq_refl) (Rows test_rows)).
Defined.

(** * Further properties of the pipeline *)

(** ** The handler on a catalogue *)

Lemma handler_rows (request : Request) (rows : list NotificationType)
    (current_user : Payload) (lang : str) :
  get_notification_types request (Rows rows) current_user lang
  = JSONResponse 200
      (NotificationTypeListResponse
         (sort_by_key (make_out <$> filter (λ nt, nt_available nt = true) rows))).
Proof. unfold get_notification_types. by rewrite collect_filter. Qed.

Lemma filter_key_fmap k (l : list NotificationType) :
  filter (λ o, out_key o = k) (make_out <$> l)
  = make_out <$> filter (λ nt, nt_key nt = k) l.
Proof.
  induction l as [|nt l IH]; [done |].
  rewrite fmap_cons, !filter_cons. simpl.
  destruct (decide (nt_key nt = k)); by rewrite IH.
Qed.

Lemma NoDup_keys_filter (P : NotificationType -> Prop) `{∀ nt, Decision (P nt)}
    (rows : list NotificationType) :
  NoDup (nt_key <$> rows) -> NoDup (nt_key <$> filter P rows).
Proof.
  induction rows as [|nt rows IH]; [done |].
  rewrite fmap_cons, NoDup_cons. intros [Hnotin Hnd].
  rewrite filter_cons. destruct (decide (P nt)); [| by apply IH].
  rewrite fmap_cons, NoDup_cons. split; [| by apply IH].
  intros (nt' & Hk & Hin)%list_elem_of_fmap. apply Hnotin.
  apply list_elem_of_fmap. exists nt'. split; [done |].
  by apply list_elem_of_filter in Hin as [_ ?].
Qed.

Lemma NoDup_keys_items (rows : list NotificationType) :
  NoDup (nt_key <$> rows) ->
  NoDup (out_key <$> (make_out <$> filter (λ nt, nt_available nt = true) rows)).
Proof.
  intros Hnd. rewrite <- list_fmap_compose.
  by apply (NoDup_keys_filter (λ nt, nt_available nt = true)).
Qed.

Lemma filter_key_short k (l : list NotificationTypeOut) :
  NoDup (out_key <$> l) -> (length (filter (λ o, out_key o = k) l) ≤ 1)%nat.
Proof.
  induction l as [|x l IH]; [simpl; lia |].
  rewrite fmap_cons, NoDup_cons. intros [Hnotin Hnd].
  rewrite filter_cons. destruct (decide (out_key x = k)) as [Hk|]; [| by apply IH].
  destruct (filter (λ o, out_key o = k) l) as [|y tl] eqn:Hf; [simpl; lia |].
  exfalso. apply filter_key_head in Hf as [Hy Hky]. apply Hnotin.
  apply list_elem_of_fmap. exists y. split; [congruence | done].
Qed.

Lemma perm_filter_key k (l1 l2 : list NotificationTypeOut) :
  NoDup (out_key <$> l1) -> l1 ≡ₚ l2 ->
  filter (λ o, out_key o = k) l1 = filter (λ o, out_key o = k) l2.
Proof.
  intros Hnd Hp. pose proof (filter_key_short k l1 Hnd) as Hlen.
  assert (Hpf : filter (λ o, out_key o = k) l1 ≡ₚ filter (λ o, out_key o = k) l2)
    by (by rewrite Hp).
  destruct (filter (λ o, out_key o = k) l1) as [|a [|b tl]].
  - by apply Permutation_nil_l.
  - by apply Permutation_singleton_l.
  - simpl in Hlen. lia.
Qed.

Lemma sort_by_key_perm_invariant (l1 l2 : list NotificationTypeOut) :
  NoDup (out_key <$> l1) -> l1 ≡ₚ l2 -> sort_by_key l1 = sort_by_key l2.
Proof.
  intros Hnd Hp. apply stable_sorted_unique; try apply sort_by_key_sorted.
  intros k. rewrite !sort_by_key_stable. by apply perm_filter_key.
Qed.

(** X2: rows that are not available cannot be observed: two catalogues
    with the same available rows, in the same order, get the same
    response. *)
Theorem unavailable_rows_unobservable (request : Request)
    (rows rows' : list NotificationType) (current_user : Payload) (lang : str) :
  filter (λ nt, nt_available nt = true) rows
  = filter (λ nt, nt_available nt = true) rows' ->
  get_notification_types request (Rows rows) current_user lang
  = get_notification_types request (Rows rows') current_user lang.
Proof. intros Heq. by rewrite !handler_rows, Heq. Qed.

(** X3: when the keys of the catalogue are pairwise distinct, the response
    does not depend on the order in which the store returns the rows. *)
Theorem listing_order_independent (request : Request)
    (rows rows' : list NotificationType) (current_user : Payload) (lang : str) :
  NoDup (nt_key <$> rows) -> rows ≡ₚ rows' ->
  get_notification_types request (Rows rows) current_user lang
  = get_notification_types request (Rows rows') current_user lang.
Proof.
  intros Hnd Hp. rewrite !handler_rows. do 2 f_equal.
  apply sort_by_key_perm_invariant; [by apply NoDup_keys_items |].
  by rewrite Hp.
Qed.

(** X4: the items of one key are the available rows of that key, in the
    order of the store: the sort never swaps items of equal key. *)
Theorem equal_keys_keep_store_order (request : Request)
    (rows : list NotificationType) (current_user : Payload) (lang : str) :
  ∃ items,
    get_notification_types request (Rows rows) current_user lang
    = JSONResponse 200 (NotificationTypeListResponse items)
    ∧ ∀ k, filter (λ o, out_key o = k) items
           = make_out <$> filter (λ nt, nt_key nt = k)
                            (filter (λ nt, nt_available nt = true) rows).
Proof.
  eexists. split; [apply handler_rows |].
  intros k. by rewrite sort_by_key_stable, filter_key_fmap.
Qed.

(** X5: when the keys of the catalogue are pairwise distinct, the keys of
    the response are strictly ascending: an item's key is below and
    different from the key of every later item. *)
Theorem unique_keys_strictly_ascending (request : Request)
    (rows : list NotificationType) (current_user : Payload) (lang : str) :
  NoDup (nt_key <$> rows) ->
  ∃ items,
    get_notification_types request (Rows rows) current_user lang
    = JSONResponse 200 (NotificationTypeListResponse items)
    ∧ NoDup (out_key <$> items)
    ∧ ∀ (i j : nat) a b, (i < j)%nat -> items !! i = Some a -> items !! j = Some b ->
        lex_le (out_key a) (out_key b) ∧ out_key a ≠ out_key b.
Proof.
  intros Hnd. eexists. split; [apply handler_rows |].
  assert (Hk : NoDup (out_key <$>
      sort_by_key (make_out <$> filter (λ nt, nt_available nt = true) rows))).
  { rewrite sort_by_key_perm. by apply NoDup_keys_items. }
  split; [exact Hk |].
  intros i j a b Hij Hi Hj. split.
  - exact (StronglySorted_lookup_le _ i j a b (sort_by_key_sorted _) Hij Hi Hj).
  - intros Heq.
    assert (i = j); [| lia].
    eapply (NoDup_lookup _ i j (out_key a) Hk).
    + by rewrite list_lookup_fmap, Hi.
    + by rewrite list_lookup_fmap, Hj, Heq.
Qed.

(** X6: the response is the empty list exactly when no stored row is
    available; in particular an empty store gets 200 with no item. *)
Theorem listing_empty_iff_none_available (request : Request)
    (rows : list NotificationType) (current_user : Payload) (lang : str) :
  get_notification_types request (Rows rows) current_user lang
  = JSONResponse 200 (NotificationTypeListResponse [])
  <-> ∀ nt, nt ∈ rows -> nt_available nt = false.
Proof.
  rewrite handler_rows. split.
  - intros Heq nt Hin. injection Heq as Heq.
    destruct (nt_available nt) eqn:Hav; [| done].
    assert (Hm : make_out nt ∈
      sort_by_key (make_out <$> filter (λ nt, nt_available nt = true) rows)).
    { rewrite sort_by_key_perm. apply list_elem_of_fmap. exists nt.
      split; [done |]. by apply list_elem_of_filter. }
    rewrite Heq in Hm. by apply elem_of_nil in Hm.
  - intros Hall.
    assert (Hf : filter (λ nt, nt_available nt = true) rows = []).
    { induction rows as [|nt rows IH]; [done |].
      rewrite filter_cons_False.
      - apply IH. intros nt' Hin. apply Hall. by apply list_elem_of_further.
      - rewrite (Hall nt); [done | apply list_elem_of_here]. }
    by rewrite Hf.
Qed.

(** X7: the response is the only list that is sorted by key and keeps,
    among the items of one key, the order of the store; the outcome of
    [result_types.sort] is fixed by these two facts, whatever the sorting
    algorithm. *)
Theorem response_determined_by_order_and_stability (request : Request)
    (rows : list NotificationType) (current_user : Payload) (lang : str)
    (items : list NotificationTypeOut) :
  StronglySorted key_le items ->
  (∀ k, filter (λ o, out_key o = k) items
        = make_out <$> filter (λ nt, nt_key nt = k)
                         (filter (λ nt, nt_available nt = true) rows)) ->
  get_notification_types request (Rows rows) current_user lang
  = JSONResponse 200 (NotificationTypeListResponse items).
Proof.
  intros Hs Hf. rewrite handler_rows. do 2 f_equal. symmetry.
  apply stable_sorted_unique; [done | apply sort_by_key_sorted |].
  intros k. by rewrite Hf, sort_by_key_stable, filter_key_fmap.
Qed.

Lemma response_determined_by_order_and_stability_witness :
  get_notification_types authenticated_request (Rows test_rows) test_payload (lit "fr")
  = JSONResponse 200
      (NotificationTypeListResponse
         [make_out email_alert; make_out push_alert; make_out sms_alert]).
Proof.
  apply response_determined_by_order_and_stability.
  - change (StronglySorted key_le
      (sort_by_key (make_out <$> [email_alert; sms_alert; push_alert]))).
    apply sort_by_key_sorted.
  - intros k.
    change (filter (λ o, out_key o = k)
              (sort_by_key (make_out <$> [email_alert; sms_alert; push_alert]))
            = make_out <$> filter (λ nt, nt_key nt = k)
                             [email_alert; sms_alert; push_alert]).
    by rewrite sort_by_key_stable, filter_key_fmap.
Defined.

(** X8: when the available rows already come in ascending key order, the
    response lists them in the order of the store. *)
Theorem sorted_catalogue_unchanged (request : Request)
    (rows : list NotificationType) (current_user : Payload) (lang : str) :
  StronglySorted key_le (make_out <$> filter (λ nt, nt_available nt = true) rows) ->
  get_notification_types request (Rows rows) current_user lang
  = JSONResponse 200
      (NotificationTypeListResponse
         (make_out <$> filter (λ nt, nt_available nt = true) rows)).
Proof.
  intros Hs. rewrite handler_rows. do 2 f_equal.
  apply stable_sorted_unique; [apply sort_by_key_sorted | done |].
  intros k. apply sort_by_key_stable.
Qed.

Lemma sorted_catalogue_unchanged_witness :
  get_notification_types authenticated_request
    (Rows [email_alert; legacy_alert; push_alert; sms_alert]) test_payload (lit "en")
  = JSONResponse 200
      (NotificationTypeListResponse
         [make_out email_alert; make_out push_alert; make_out sms_alert]).
Proof.
  apply (sorted_catalogue_unchanged authenticated_request
           [email_alert; legacy_alert; push_alert; sms_alert]).
  change (StronglySorted key_le
    (sort_by_key (make_out <$> [email_alert; push_alert; sms_alert]))).
  apply sort_by_key_sorted.
Defined.

Lemma test_rows_keys_NoDup : NoDup (nt_key <$> test_rows).
Proof. apply (bool_decide_unpack _). vm_compute. exact I. Defined.

Lemma unavailable_rows_unobservable_witness :
  get_notification_types authenticated_request (Rows test_rows) test_payload (lit "en")
  = get_notification_types authenticated_request
      (Rows [email_alert; sms_alert; push_alert]) test_payload (lit "en").
Proof.
  apply unavailable_rows_unobservable. vm_compute. reflexivity.
Defined.

Lemma listing_order_independent_witness :
  get_notification_types authenticated_request (Rows test_rows) test_payload (lit "en")
  = get_notification_types authenticated_request (Rows (reverse test_rows))
      test_payload (lit "en").
Proof.
  apply listing_order_independent; [exact test_rows_keys_NoDup |].
  symmetry. apply reverse_Permutation.
Defined.

Lemma unique_keys_strictly_ascending_witness :
  ∃ items,
    get_notification_types authenticated_request (Rows test_rows) test_payload (lit "en")
    = JSONResponse 200 (NotificationTypeListResponse items)
    ∧ NoDup (out_key <$> items).
Proof.
  destruct (unique_keys_strictly_ascending authenticated_request test_rows
              test_payload (lit "en") test_rows_keys_NoDup)
    as (items & Hresp & Hnd & _).
  exists items. split; assumption.
Defined.

(** ** Description lookup *)

(** X9: [get_description] returns a stored text or nothing: its result is
    the text stored under [lang], or, when that one is missing or empty,
    the text stored under ["en"], or the empty string; and it is the empty
    string exactly when neither language has a non-empty text. *)
Theorem get_description_returns_stored_text (descriptions : option (gmap str str))
    (lang : str) :
  (get_description descriptions lang = []
   ∨ ∃ d, descriptions = Some d
          ∧ (d !! lang = Some (get_description descriptions lang)
             ∨ (truthy (d !! lang) = false
                ∧ d !! lit "en" = Some (get_description descriptions lang))))
  ∧ (get_description descriptions lang = []
     <-> match descriptions with
         | None => True
         | Some d => truthy (d !! lang) = false ∧ truthy (d !! lit "en") = false
         end).
Proof.
  rewrite get_description_cases. destruct descriptions as [d|].
  - destruct (d !! lang) as [[|c s]|] eqn:Hl,
      (d !! lit "en") as [[|c' s']|] eqn:He;
      simpl; (split;
        [ first [ by left
                | right; exists d; split; [reflexivity |]; rewrite Hl, ?He;
                  first [ left; reflexivity | right; split; reflexivity ] ]
        | split;
          [ intros H; first [ discriminate H | split; reflexivity ]
          | intros [H1 H2];
            first [ reflexivity | discriminate H1 | discriminate H2 ] ] ]).
  - split; [by left | done].
Qed.

(** X10: a language whose text is missing or empty is answered like
    English. *)
Theorem get_description_missing_lang_is_english (d : gmap str str) (lang : str) :
  truthy (d !! lang) = false ->
  get_description (Some d) lang = get_description (Some d) (lit "en").
Proof.
  intros Hl. rewrite !get_description_cases.
  destruct (d !! lang) as [[|c s]|]; try done;
    by destruct (d !! lit "en") as [[|c' s']|].
Qed.

Lemma get_description_missing_lang_is_english_witness :
  truthy (nt_descriptions fax_alert !! lit "fr") = false
  ∧ get_description (Some (nt_descriptions fax_alert)) (lit "fr")
    = get_description (Some (nt_descriptions fax_alert)) (lit "en").
Proof.
  split; [reflexivity |].
  apply get_description_missing_lang_is_english. reflexivity.
Defined.

(** X11: the method departs from the plain lookup policy (the entry of
    [lang] if present, else the entry of ["en"], else [""]) in one case
    only: the text of [lang] is stored empty and the English one is not
    empty. *)
Theorem get_description_departs_iff (descriptions : option (gmap str str))
    (lang : str) :
  get_description descriptions lang ≠ spec_get_description descriptions lang
  <-> ∃ d, descriptions = Some d ∧ d !! lang = Some []
           ∧ truthy (d !! lit "en") = true.
Proof.
  rewrite get_description_cases. destruct descriptions as [d|]; simpl.
  - destruct (d !! lang) as [[|c s]|] eqn:Hl.
    + destruct (d !! lit "en") as [[|c' s']|] eqn:He; simpl.
      * split; [done |]. by intros (d' & [= <-] & _ & He'); rewrite He in He'.
      * split; [intros _; exists d; by rewrite Hl, He | done].
      * split; [done |]. by intros (d' & [= <-] & _ & He'); rewrite He in He'.
    + split; [done |]. by intros (d' & [= <-] & Hl' & _); rewrite Hl in Hl'.
    + split; [done |]. by intros (d' & [= <-] & Hl' & _); rewrite Hl in Hl'.
  - split; [done |]. by intros (d' & ? & _).
Qed.

(** ** The principal accessor and the route *)

Lemma startswith_app (s p : str) : startswith s p = true <-> ∃ t, s = p ++ t.
Proof.
  revert s; induction p as [|c p IH]; intros s.
  - split; [intros _; by exists s | by destruct s].
  - destruct s as [|d s]; simpl.
    + split; [done | by intros [t ?]].
    + rewrite andb_true_iff, N.eqb_eq, IH. split.
      * intros [-> [t ->]]. by exists t.
      * intros [t [= -> ->]]. split; [done | by exists t].
Qed.

(** X12: [get_current_user] returns a principal exactly when a non-empty
    payload is attached to the request, and then returns that payload; the
    only exception it raises is the 401 "Authentication required. Please
    log in.". *)
Theorem get_current_user_returns_iff (request : Request) :
  (∀ payload, get_current_user request = inl payload
     <-> state_user request = Some payload ∧ payload ≠ ∅)
  ∧ (∀ exc, get_current_user request = inr exc ->
       exc = {| exc_status_code := 401;
                exc_detail := "Authentication required. Please log in." |}
       ∧ falsy_user (state_user request) = true).
Proof.
  unfold get_current_user. destruct (state_user request) as [p|]; simpl.
  - case_bool_decide as Hp; split.
    + intros payload. split; [done |]. intros [[= <-] Hne]. done.
    + intros exc [= <-]. split; reflexivity.
    + intros payload. split; [by intros [= <-] | by intros [[= <-] _]].
    + intros exc Hexc. discriminate Hexc.
  - split; [| intros exc [= <-]; split; reflexivity].
    intros payload. split; [done | by intros [? _]].
Qed.

(** X13: for a request with a principal, a [lang] of fewer than 2 or more
    than 5 characters is answered 422 "Invalid request data." without
    looking at the store: the answer is the same whatever the query would
    give. *)
Theorem invalid_lang_rejected_before_query (db : QueryResult) (request : Request)
    (payload : Payload) (lang : str) :
  state_user request = Some payload -> payload ≠ ∅ ->
  query_lang request = Some lang -> lang_valid lang = false ->
  status_code (notifications_route db request) = 422
  ∧ body_detail (content (notifications_route db request))
    = Some "Invalid request data."%string
  ∧ ∀ db', notifications_route db' request = notifications_route db request.
Proof.
  intros Hu Hp Hq Hl.
  assert (Hr : ∀ db0, notifications_route db0 request
                = validation_exception_handler (validate_lang lang)).
  { intros db0. rewrite (notifications_route_authenticated _ _ payload) by done.
    rewrite Hq. unfold lang_valid, validate_lang in *.
    destruct (Nat.ltb_spec (length lang) 2); [done |].
    destruct (Nat.ltb_spec 5 (length lang)); [done |].
    apply andb_false_iff in Hl as [Hl|Hl]; apply Nat.leb_gt in Hl; lia. }
  rewrite Hr. split; [done |]. split; [done |]. intros db'. by rewrite Hr.
Qed.

Lemma invalid_lang_rejected_before_query_witness :
  lang_valid (lit "x") = false
  ∧ notifications_route (Rows test_rows) (with_query_lang authenticated_request (lit "x"))
    = JSONResponse 422 (DetailErrors "Invalid request data." [MinLength "lang" 2])
  ∧ status_code (notifications_route (RaiseSQLAlchemyError [])
                   (with_query_lang authenticated_request (lit "toolong")))
    = 422.
Proof.
  split; [reflexivity |]. split; [reflexivity |].
  exact (proj1 (invalid_lang_rejected_before_query (RaiseSQLAlchemyError [])
                  (with_query_lang authenticated_request (lit "toolong"))
                  test_payload (lit "toolong")
                  eq_refl test_payload_truthy eq_refl eq_refl)).
Defined.

(** X14: a request that leaves [lang] out is answered like the same
    request with any [lang] of valid length. *)
Theorem omitted_lang_like_valid_lang (db : QueryResult) (request : Request)
    (lang : str) :
  query_lang request = None -> lang_valid lang = true ->
  notifications_route db (with_query_lang request lang)
  = notifications_route db request.
Proof.
  intros Hq Hl. unfold notifications_route.
  change (get_current_user (with_query_lang request lang))
    with (get_current_user request).
  destruct (get_current_user request) as [u|exc]; [| done].
  rewrite Hq. simpl. rewrite lang_valid_no_errors by done.
  by destruct db.
Qed.

Lemma omitted_lang_like_valid_lang_witness :
  notifications_route (Rows test_rows) (with_query_lang authenticated_request (lit "fr"))
  = notifications_route (Rows test_rows) authenticated_request.
Proof.
  apply omitted_lang_like_valid_lang; reflexivity.
Defined.

(** X15: every answer of the listing route is a 200 that carries the list
    of items, or a 401, 422 or 500 that carries a [detail] text. *)
Theorem route_status_and_detail (db : QueryResult) (request : Request) :
  (status_code (notifications_route db request) = 200
   ∧ ∃ items, content (notifications_route db request)
              = NotificationTypeListResponse items)
  ∨ ((status_code (notifications_route db request) = 401
      ∨ status_code (notifications_route db request) = 422
      ∨ status_code (notifications_route db request) = 500)
     ∧ ∃ detail, body_detail (content (notifications_route db request))
                 = Some detail).
Proof.
  unfold notifications_route.
  destruct (get_current_user request) as [u|exc] eqn:Hu.
  - assert (Hh : ∀ lang,
      (status_code (get_notification_types request db u lang) = 200
       ∧ ∃ items, content (get_notification_types request db u lang)
                  = NotificationTypeListResponse items)
      ∨ ((status_code (get_notification_types request db u lang) = 401
          ∨ status_code (get_notification_types request db u lang) = 422
          ∨ status_code (get_notification_types request db u lang) = 500)
         ∧ ∃ detail, body_detail (content (get_notification_types request db u lang))
                     = Some detail)).
    { intros lang. destruct db; simpl; [left | right | right]; eauto 10. }
    destruct (query_lang request) as [lang|]; [| apply Hh].
    destruct (validate_lang lang) eqn:Hv; [apply Hh |].
    right. simpl. eauto 10.
  - right. unfold get_current_user in Hu.
    destruct (state_user request); [destruct (falsy_user _) |];
      simplify_eq; simpl; eauto 10.
Qed.

(** X16: the catalogue is the same for every principal: two requests that
    differ in the attached payload only, both non-empty, get the same
    answer. *)
Theorem route_principal_irrelevant (db : QueryResult) (request : Request)
    (payload payload' : Payload) :
  payload ≠ ∅ -> payload' ≠ ∅ ->
  notifications_route db (set_state_user request payload)
  = notifications_route db (set_state_user request payload').
Proof.
  intros Hp Hp'.
  rewrite (notifications_route_authenticated _ _ payload) by done.
  rewrite (notifications_route_authenticated _ _ payload') by done.
  simpl. destruct (query_lang request) as [lang|]; [| by destruct db].
  destruct (validate_lang lang); [by destruct db | done].
Qed.

Lemma route_principal_irrelevant_witness :
  notifications_route (Rows test_rows) (set_state_user api_request test_payload)
  = notifications_route (Rows test_rows)
      (set_state_user api_request {[ lit "sub" := ClaimStr (lit "2") ]}).
Proof.
  apply route_principal_irrelevant; [exact test_payload_truthy |].
  intros H. apply (f_equal (λ m : Payload, m !! lit "sub")) in H.
  vm_compute in H. discriminate H.
Defined.

(** ** The access gate in front of the routes *)

(** X17: the allow-list is a list of prefixes: a path is exempt from
    authentication exactly when it is [/health], [/docs], [/openapi.json]
    or [/redoc] followed by anything. *)
Theorem allow_listed_iff_prefix (p : str) :
  allow_listed p = true
  <-> ∃ t, p = lit "/health" ++ t ∨ p = lit "/docs" ++ t
           ∨ p = lit "/openapi.json" ++ t ∨ p = lit "/redoc" ++ t.
Proof.
  unfold allow_listed. rewrite !orb_true_iff, !startswith_app. split.
  - intros [[[[t ->] | [t ->]] | [t ->]] | [t ->]]; exists t; auto.
  - intros [t [-> | [-> | [-> | ->]]]]; eauto 10.
Qed.

Section GateProperties.

Variable getenv : str -> option str.
Variable jwt_decode : str -> str -> list str -> JwtOutcome.
Variable bearer : Request -> option HTTPAuthorizationCredentials.
Variable lower : str -> str.
Variable framework_route : Request -> Response.
Variable transport : (Request -> Response) -> Request -> Response.

Local Abbreviation dispatch := (AuthMiddleware_dispatch getenv jwt_decode bearer lower).
Local Abbreviation the_app :=
  (app getenv jwt_decode bearer lower framework_route transport).
Local Abbreviation decode token :=
  (jwt_decode token (JWT_SECRET getenv) [JWT_ALGORITHM getenv]).

(** X18: what the gate attaches is what [get_current_user] reads: when
    the token decodes to a non-empty payload, the request handed on differs
    from the incoming one in [state.user] only, and [get_current_user]
    returns the decoded payload on it. *)
Theorem gate_attach_read_roundtrip (request : Request)
    (creds : HTTPAuthorizationCredentials) (payload : Payload)
    (call_next : Request -> Response) :
  allow_listed (path request) = false ->
  bearer request = Some creds ->
  lower (scheme creds) = lit "bearer" ->
  decode (credentials creds) = Decoded payload ->
  payload ≠ ∅ ->
  ∃ forwarded,
    dispatch request call_next = call_next forwarded
    ∧ get_current_user forwarded = inl payload
    ∧ method forwarded = method request
    ∧ url_scheme forwarded = url_scheme request
    ∧ path forwarded = path request
    ∧ authorization forwarded = authorization request
    ∧ query_lang forwarded = query_lang request.
Proof.
  intros Hpath Hb Hs Hd Hp. exists (set_state_user request payload).
  split; [| split; [by apply get_current_user_truthy | done]].
  unfold AuthMiddleware_dispatch, str_eqb.
  rewrite Hpath, Hb, Hs, Hd. by rewrite bool_decide_eq_true_2.
Qed.

(** X19: a request that does not authenticate never gets past the gate:
    outside the allow-list, when no bearer credential decodes to a
    payload, the answer is a 401 with a [detail], it is the same whatever
    stands behind the gate, and in particular whatever the store holds. *)
Theorem rejected_request_never_forwarded (request : Request) :
  allow_listed (path request) = false ->
  (∀ creds payload, bearer request = Some creds ->
     lower (scheme creds) = lit "bearer" ->
     decode (credentials creds) ≠ Decoded payload) ->
  (∀ call_next, status_code (dispatch request call_next) = 401
                ∧ ∃ detail, content (dispatch request call_next) = Detail detail)
  ∧ (∀ call_next call_next',
       dispatch request call_next = dispatch request call_next')
  ∧ (∀ db db', the_app db request = the_app db' request).
Proof.
  intros Hpath Hno.
  assert (Hr : ∃ detail, ∀ call_next,
    dispatch request call_next = JSONResponse 401 (Detail detail)).
  { unfold AuthMiddleware_dispatch, str_eqb. rewrite Hpath.
    destruct (bearer request) as [creds|] eqn:Hb; [| by eexists].
    case_bool_decide as Hs; simpl; [| by eexists].
    specialize (Hno creds).
    destruct (decode (credentials creds)) as [payload| | |];
      [| by eexists ..].
    by destruct (Hno payload). }
  destruct Hr as [detail Hr]. split; [| split].
  - intros call_next. rewrite Hr. eauto.
  - intros call_next call_next'. by rewrite !Hr.
  - intros db db'. unfold app. by rewrite !Hr.
Qed.

(** X20: every path under [/api/] is behind the gate: a request to such a
    path without bearer credential is answered 401 "Authentication
    required. Please log in." by the application, whatever the store and
    the routes. *)
Theorem api_paths_require_credentials (request : Request) (t : str)
    (db : QueryResult) :
  path request = lit "/api/" ++ t ->
  bearer request = None ->
  allow_listed (path request) = false
  ∧ the_app db request
    = JSONResponse 401 (Detail "Authentication required. Please log in.").
Proof.
  intros Hpath Hb.
  assert (Ha : allow_listed (path request) = false) by (by rewrite Hpath).
  split; [exact Ha |].
  unfold app, AuthMiddleware_dispatch. by rewrite Ha, Hb.
Qed.

(** X21: the gate validates against the configured secret and the single
    configured algorithm and nothing else: two validators that agree on
    that secret and that list of algorithms make the same gate. *)
Theorem gate_uses_configured_secret_only
    (jwt_decode' : str -> str -> list str -> JwtOutcome)
    (request : Request) (call_next : Request -> Response) :
  (∀ token, jwt_decode token (JWT_SECRET getenv) [JWT_ALGORITHM getenv]
            = jwt_decode' token (JWT_SECRET getenv) [JWT_ALGORITHM getenv]) ->
  dispatch request call_next
  = AuthMiddleware_dispatch getenv jwt_decode' bearer lower request call_next.
Proof.
  intros Hagree. unfold AuthMiddleware_dispatch.
  destruct (allow_listed (path request)); [done |].
  destruct (bearer request) as [creds|]; [| done].
  destruct (negb _); [done |]. by rewrite Hagree.
Qed.

(** X22: end to end, a [GET /api/notifications/] whose bearer token
    decodes to a non-empty payload, with [lang] left out or of valid
    length, and let through by the transport middleware, is answered by the
    handler run on the decoded payload: 200 with the available rows sorted
    by key when the query gives rows. *)
Theorem authenticated_listing_end_to_end (request : Request)
    (creds : HTTPAuthorizationCredentials) (payload : Payload) :
  method request = lit "GET" ->
  path request = lit "/api/notifications/" ->
  bearer request = Some creds ->
  lower (scheme creds) = lit "bearer" ->
  decode (credentials creds) = Decoded payload ->
  payload ≠ ∅ ->
  from_option lang_valid true (query_lang request) = true ->
  passes_transport transport (set_state_user request payload) ->
  (∀ db, the_app db request
         = get_notification_types (set_state_user request payload) db payload
             (default (lit "en") (query_lang request)))
  ∧ ∀ rows, the_app (Rows rows) request
            = JSONResponse 200
                (NotificationTypeListResponse
                   (sort_by_key
                      (make_out <$> filter (λ nt, nt_available nt = true) rows))).
Proof.
  intros Hm Hpath Hb Hs Hd Hp Hl Ht.
  assert (Ha : allow_listed (path request) = false) by (by rewrite Hpath).
  assert (Happ : ∀ db, the_app db request
    = get_notification_types (set_state_user request payload) db payload
        (default (lit "en") (query_lang request))).
  { intros db. unfold app, AuthMiddleware_dispatch, str_eqb.
    rewrite Ha, Hb, Hs, Hd. rewrite bool_decide_eq_true_2 by done. simpl.
    rewrite Ht. unfold router, str_eqb. simpl. rewrite Hm, Hpath.
    rewrite bool_decide_eq_true_2 by done.
    rewrite bool_decide_eq_false_2 by done.
    rewrite bool_decide_eq_true_2 by done. simpl.
    rewrite (notifications_route_authenticated _ _ payload) by done. simpl.
    destruct (query_lang request) as [lang|]; [| done]. simpl in Hl.
    by rewrite lang_valid_no_errors. }
  split; [exact Happ |]. intros rows. rewrite Happ. apply handler_rows.
Qed.

End GateProperties.

Lemma gate_attach_read_roundtrip_witness :
  ∃ forwarded,
    AuthMiddleware_dispatch no_env (decode_const test_payload) bearer_whole
      lower_ascii api_request not_found
    = not_found forwarded
    ∧ get_current_user forwarded = inl test_payload.
Proof.
  destruct (gate_attach_read_roundtrip no_env (decode_const test_payload)
              bearer_whole lower_ascii api_request
              {| scheme := lit "Bearer"; credentials := lit "token" |}
              test_payload not_found
              eq_refl eq_refl eq_refl eq_refl test_payload_truthy)
    as (forwarded & Hd & Hu & _).
  exists forwarded. split; assumption.
Defined.

Lemma rejected_request_never_forwarded_witness :
  allow_listed (path api_request) = false
  ∧ app no_env (decode_outcome RaiseExpiredSignatureError) bearer_whole
      lower_ascii not_found https_redirect (Rows test_rows) api_request
    = app no_env (decode_outcome RaiseExpiredSignatureError) bearer_whole
        lower_ascii not_found https_redirect (RaiseSQLAlchemyError []) api_request.
Proof.
  split; [reflexivity |].
  apply (rejected_request_never_forwarded no_env
           (decode_outcome RaiseExpiredSignatureError) bearer_whole lower_ascii
           not_found https_redirect api_request eq_refl).
  intros creds payload _ _ H. discriminate H.
Defined.

Lemma api_paths_require_credentials_witness :
  path anonymous_api_request = lit "/api/" ++ lit "notifications/"
  ∧ bearer_whole anonymous_api_request = None
  ∧ app no_env (decode_const test_payload) bearer_whole lower_ascii not_found
      https_redirect (Rows test_rows) anonymous_api_request
    = JSONResponse 401 (Detail "Authentication required. Please log in.").
Proof.
  split; [reflexivity |]. split; [reflexivity |].
  exact (proj2 (api_paths_require_credentials no_env (decode_const test_payload)
                  bearer_whole lower_ascii not_found https_redirect
                  anonymous_api_request (lit "notifications/") (Rows test_rows)
                  eq_refl eq_refl)).
Defined.

Lemma gate_uses_configured_secret_only_witness :
  AuthMiddleware_dispatch no_env (decode_const test_payload) bearer_whole
    lower_ascii api_request not_found
  = AuthMiddleware_dispatch no_env (decode_default_config test_payload)
      bearer_whole lower_ascii api_request not_found.
Proof.
  apply gate_uses_configured_secret_only. intros token. reflexivity.
Defined.

Lemma authenticated_listing_end_to_end_witness :
  app no_env (decode_const test_payload) bearer_whole lower_ascii not_found
    https_redirect (Rows test_rows) api_request
  = JSONResponse 200
      (NotificationTypeListResponse
         (sort_by_key
            (make_out <$> filter (λ nt, nt_available nt = true) test_rows))).
Proof.
  apply (authenticated_listing_end_to_end no_env (decode_const test_payload)
           bearer_whole lower_ascii not_found https_redirect api_request
           {| scheme := lit "Bearer"; credentials := lit "token" |} test_payload
           eq_refl eq_refl eq_refl eq_refl eq_refl test_payload_truthy eq_refl
           (λ next, eq_refl)).
Defined.

(** ** Serialisation of a row *)

Lemma sign_magnitude_inj t t' : sign_magnitude t = sign_magnitude t' -> t = t'.
Proof. destruct t, t'; simpl; congruence. Defined.

(** X23: [as_dict] loses nothing of a stored row: when [isoformat] tells
    instants apart, two rows with the same dict are the same row. *)
Theorem as_dict_injective (isoformat : Z -> str) (nt nt' : NotificationType) :
  (∀ t t', isoformat t = isoformat t' -> t = t') ->
  as_dict isoformat nt = as_dict isoformat nt' -> nt = nt'.
Proof.
  intros Hinj Heq.
  destruct nt as [i k d av dp r c u], nt' as [i' k' d' av' dp' r' c' u'].
  pose proof (f_equal (λ m : gmap str PyValue, m !! lit "id") Heq) as H1.
  pose proof (f_equal (λ m : gmap str PyValue, m !! lit "key") Heq) as H2.
  pose proof (f_equal (λ m : gmap str PyValue, m !! lit "descriptions") Heq) as H3.
  pose proof (f_equal (λ m : gmap str PyValue, m !! lit "available") Heq) as H4.
  pose proof (f_equal (λ m : gmap str PyValue, m !! lit "deprecated") Heq) as H5.
  pose proof (f_equal (λ m : gmap str PyValue, m !! lit "deprecated_reason") Heq) as H6.
  pose proof (f_equal (λ m : gmap str PyValue, m !! lit "created_at") Heq) as H7.
  pose proof (f_equal (λ m : gmap str PyValue, m !! lit "updated_at") Heq) as H8.
  clear Heq.
  change (Some (PyInt i) = Some (PyInt i')) in H1.
  change (Some (PyStr k) = Some (PyStr k')) in H2.
  change (Some (PyDict d) = Some (PyDict d')) in H3.
  change (Some (PyBool av) = Some (PyBool av')) in H4.
  change (Some (PyBool dp) = Some (PyBool dp')) in H5.
  change (Some (match r with Some x => PyStr x | None => PyNone end)
          = Some (match r' with Some x => PyStr x | None => PyNone end)) in H6.
  change (Some (PyStr (isoformat c)) = Some (PyStr (isoformat c'))) in H7.
  change (Some (PyStr (isoformat u)) = Some (PyStr (isoformat u'))) in H8.
  injection H1 as ->. injection H2 as ->. injection H3 as ->.
  injection H4 as ->. injection H5 as ->.
  injection H7 as H7. injection H8 as H8.
  apply Hinj in H7 as ->. apply Hinj in H8 as ->.
  assert (r = r') as -> by (destruct r, r'; congruence).
  reflexivity.
Qed.

Lemma as_dict_injective_witness :
  as_dict sign_magnitude sms_alert ≠ as_dict sign_magnitude fax_alert.
Proof.
  intros Heq.
  apply (as_dict_injective sign_magnitude sms_alert fax_alert sign_magnitude_inj)
    in Heq.
  discriminate Heq.
Defined.

